(** * Verification of [bot/exts/moderation/stream.py]

    The [Stream] cog grants the video role for a bounded time and revokes
    it when the time is up.  It keeps two pieces of state in step: the
    Redis-backed [task_cache] (member id -> POSIX timestamp) and the
    in-memory [Scheduler] of pending revocations.

    The cog is embedded as a state-and-exception monad over a [World]
    holding both stores, the set of members that hold the video role, the
    clock, and a trace of every call that leaves the cog.  Each method of
    the cog is one definition below, named as in the source.  Calls to
    [log] change nothing the cog can observe and are left out. *)

From stdpp Require Import base option list gmap sets.
From Stdlib Require Import ZArith Lia.

#[local] Open Scope Z_scope.

(** ** Exceptions *)

(** [discord.errors.NotFound] and [discord.errors.Forbidden] are subclasses
    of [discord.HTTPException]; the rest of the family is kept as
    [ServerError] (5xx) and [OtherHTTP]. *)
Inductive HTTPKind : Type :=
  | NotFound
  | Forbidden
  | ServerError
  | OtherHTTP.

Inductive Exn : Type :=
  | RedisError
  | HTTPException (kind : HTTPKind).

Inductive Result (A : Type) : Type :=
  | Ok (a : A)
  | Raise (e : Exn).

Arguments Ok {A} a.
Arguments Raise {A} e.

(** ** Data *)

(** A [discord.Member] is identified by its id; its role list lives in the
    world ([video_role]). *)
Abbreviation Member := Z (only parsing).

(** Naive [datetime] values and POSIX timestamps are both counted in
    microseconds ([datetime]'s resolution).  The source holds timestamps
    as floats of seconds; the float is abstracted to the exact value. *)
Abbreviation Datetime := Z (only parsing).
Abbreviation Timestamp := Z (only parsing).

(** The only coroutine the cog ever hands to the scheduler. *)
Inductive Coroutine : Type :=
  | RevokeStreamingPermission (member : Member).

Record Timer : Type := mkTimer {
  due : Datetime;
  action : Coroutine;
}.

(** The replies sent with [ctx.send]. *)
Inductive Message : Type :=
  | MsgAlreadyCanStream
  | MsgCanNowStream (member : Member) (until : Datetime)
  | MsgChangedToPermanent
  | MsgPermanentlyGranted (member : Member)
  | MsgRevoked (member : Member)
  | MsgNoVideoPermission.

(** Every call that leaves the cog. *)
Inductive Event : Type :=
  | EvCacheSet (key : Z) (value : Timestamp)
  | EvCacheDelete (key : Z)
  | EvCacheItems
  | EvFetchMember (key : Z)
  | EvAddRoles (member : Member)
  | EvRemoveRoles (member : Member)
  | EvSend (msg : Message)
  | EvScheduleAt (time : Datetime) (task_id : Z) (coroutine : Coroutine)
  | EvCancel (task_id : Z).

#[global] Instance HTTPKind_eq_dec : EqDecision HTTPKind.
Proof. solve_decision. Defined.
#[global] Instance Exn_eq_dec : EqDecision Exn.
Proof. solve_decision. Defined.
#[global] Instance Coroutine_eq_dec : EqDecision Coroutine.
Proof. solve_decision. Defined.
#[global] Instance Timer_eq_dec : EqDecision Timer.
Proof. solve_decision. Defined.
#[global] Instance Message_eq_dec : EqDecision Message.
Proof. solve_decision. Defined.
#[global] Instance Event_eq_dec : EqDecision Event.
Proof. solve_decision. Defined.

(** ** The world *)

(** [trace] records each event together with the content of [task_cache]
    at the moment the call was issued. *)
Record World : Type := mkWorld {
  task_cache : gmap Z Z;
  scheduler : gmap Z Timer;
  video_role : gset Z;
  now : Datetime;
  calls : nat;
  trace : list (Event * gmap Z Z);
}.

Definition set_task_cache (f : gmap Z Z → gmap Z Z) (w : World) : World :=
  mkWorld (f (task_cache w)) (scheduler w) (video_role w) (now w) (calls w) (trace w).

Definition set_scheduler (f : gmap Z Timer → gmap Z Timer) (w : World) : World :=
  mkWorld (task_cache w) (f (scheduler w)) (video_role w) (now w) (calls w) (trace w).

Definition set_video_role (f : gset Z → gset Z) (w : World) : World :=
  mkWorld (task_cache w) (scheduler w) (f (video_role w)) (now w) (calls w) (trace w).

(** Log [ev] with the store as it is when the call starts. *)
Definition record (ev : Event) (w : World) : World :=
  mkWorld (task_cache w) (scheduler w) (video_role w) (now w) (calls w)
          (trace w ++ [(ev, task_cache w)]).

(** Count one request sent to an outside service. *)
Definition bump (w : World) : World :=
  mkWorld (task_cache w) (scheduler w) (video_role w) (now w) (S (calls w)) (trace w).

Definition events (w : World) : list Event := (trace w).*1.

(** ** The monad of the cog's methods *)

Definition M (A : Type) : Type := World → Result A * World.

#[global] Instance M_ret : MRet M := λ A a w, (Ok a, w).

#[global] Instance M_bind : MBind M := λ A B f m w,
  match m w with
  | (Ok a, w') => f a w'
  | (Raise e, w') => (Raise e, w')
  end.

(** [for x in xs: body(x)] *)
Fixpoint for_each {A} (xs : list A) (body : A → M unit) : M unit :=
  match xs with
  | [] => mret tt
  | x :: xs' => body x ;; for_each xs' body
  end.

(** ** The environment

    What the cog cannot control: the guild's member directory, which
    requests to Redis and to Discord fail (by the number of the request),
    the host's time zone, and the constants of [bot.constants]. *)
Record Env : Type := mkEnv {
  (** [guild.get_member(id)] finds the member in the local cache *)
  in_member_cache : Z → bool;
  (** [guild.fetch_member(id)]: [None] when Discord returns the member,
      [Some k] when the request raises *)
  fetch_outcome : Z → option HTTPKind;
  (** the [n]-th request, when sent to Redis, fails *)
  redis_fault : nat → bool;
  (** the [n]-th request, when sent to Discord to edit roles or post a
      message, fails with this error *)
  http_fault : nat → option HTTPKind;
  (** offset of the host's local time zone, in microseconds east of UTC *)
  utc_offset : Z;
  (** [VideoPermission.default_permission_duration], in minutes *)
  default_permission_duration : Z;
}.

Section Cog.

Variable env : Env.

(** ** Requests to outside services *)

(** A request to Redis: it is logged and counted, then it either fails or
    takes effect. *)
Definition redis_request {A} (ev : Event) (effect : World → A * World) : M A := λ w,
  let w1 := bump (record ev w) in
  if redis_fault env (calls w) then (Raise RedisError, w1)
  else let '(a, w2) := effect w1 in (Ok a, w2).

(** A request to Discord that edits roles or posts a message. *)
Definition discord_request (ev : Event) (effect : World → World) : M unit := λ w,
  let w1 := bump (record ev w) in
  match http_fault env (calls w) with
  | Some k => (Raise (HTTPException k), w1)
  | None => (Ok tt, effect w1)
  end.

(** [RedisCache.set], [RedisCache.delete], [RedisCache.items] *)
Definition cache_set (key : Z) (value : Timestamp) : M unit :=
  redis_request (EvCacheSet key value) (λ w, (tt, set_task_cache (insert key value) w)).

Definition cache_delete (key : Z) : M unit :=
  redis_request (EvCacheDelete key) (λ w, (tt, set_task_cache (delete key) w)).

Definition cache_items : M (list (Z * Z)) :=
  redis_request EvCacheItems (λ w, (map_to_list (task_cache w), w)).

(** [member.add_roles(discord.Object(Roles.video))] and [remove_roles] *)
Definition add_roles (member : Member) : M unit :=
  discord_request (EvAddRoles member) (set_video_role (λ s, s ∪ {[member]})).

Definition remove_roles (member : Member) : M unit :=
  discord_request (EvRemoveRoles member) (set_video_role (λ s, s ∖ {[member]})).

(** [ctx.send] *)
Definition send (msg : Message) : M unit :=
  discord_request (EvSend msg) id.

(** [any(Roles.video == role.id for role in member.roles)] *)
Definition has_video_role (member : Member) : M bool := λ w,
  (Ok (bool_decide (member ∈ video_role w)), w).

(** [guild.get_member(key)]: a lookup in the local cache, [None] on a miss *)
Definition get_member (key : Z) : option Member :=
  if in_member_cache env key then Some key else None.

(** [guild.fetch_member(key)]: a request to Discord *)
Definition fetch_member (key : Z) : M Member := λ w,
  let w1 := bump (record (EvFetchMember key) w) in
  match fetch_outcome env key with
  | None => (Ok key, w1)
  | Some k => (Raise (HTTPException k), w1)
  end.

(** ** [datetime] *)

Definition utcnow : M Datetime := λ w, (Ok (now w), w).

(** [datetime.timedelta(minutes=n)] *)
Definition timedelta_minutes (n : Z) : Z := n * 60000000.

(** [naive.timestamp()]: a naive datetime is read as local time. *)
Definition timestamp (d : Datetime) : Timestamp := d - utc_offset env.

(** [datetime.utcfromtimestamp(t)]: the naive datetime that is [t] in UTC. *)
Definition utcfromtimestamp (t : Timestamp) : Datetime := t.

(** ** [bot.utils.scheduling.Scheduler] *)

(** Modelled from the spec: [Scheduler.schedule_at] of
    [bot/utils/scheduling.py], which is not part of the sources at hand.
    Arming an id overwrites a timer already pending for it; the time is a
    naive UTC datetime and may lie in the past. *)
Definition schedule_at (time : Datetime) (task_id : Z) (coroutine : Coroutine) : M unit := λ w,
  (Ok tt, set_scheduler (insert task_id (mkTimer time coroutine))
                        (record (EvScheduleAt time task_id coroutine) w)).

(** Modelled from the spec: [Scheduler.cancel], missing as above.
    Removes the timer; cancelling an id that is not pending does nothing. *)
Definition cancel (task_id : Z) : M unit := λ w,
  (Ok tt, set_scheduler (delete task_id) (record (EvCancel task_id) w)).

(** Modelled from the spec: [Scheduler.__contains__], missing as above. *)
Definition scheduler_contains (task_id : Z) : M bool := λ w,
  (Ok (bool_decide (is_Some (scheduler w !! task_id))), w).


(** ** The cog *)

(** Lines 34-37. *)
Definition _revoke_streaming_permission (member : Member) : M unit :=
  cache_delete member;;
  remove_roles member.

Definition run_coroutine (c : Coroutine) : M unit :=
  match c with
  | RevokeStreamingPermission member => _revoke_streaming_permission member
  end.

(** One turn of the loop of lines 43-65; [None] from the first step stands
    for [continue]. *)
Definition reload_one (item : Z * Z) : M unit :=
  let '(key, value) := item in
  resolved ← match get_member key with
             | Some member => mret (Some member)
             | None => λ w,
                 match fetch_member key w with
                 | (Ok member, w1) => (Ok (Some member), w1)
                 | (Raise (HTTPException NotFound), w1) =>
                     (cache_delete key;; mret None) w1
                 | (Raise (HTTPException _), w1) => (Ok None, w1)
                 | (Raise e, w1) => (Raise e, w1)
                 end
             end;
  match resolved with
  | None => mret tt
  | Some member =>
      let revoke_time := utcfromtimestamp value in
      schedule_at revoke_time key (RevokeStreamingPermission member)
  end.

(** Lines 39-65.  [wait_until_guild_available] only delays the start. *)
Definition _reload_tasks_from_redis : M unit :=
  items ← cache_items;
  for_each items reload_one.

(** Lines 69-105. *)
Definition stream (member : Member) (duration : option Datetime) : M unit :=
  duration ← match duration with
             | None =>
                 t ← utcnow;
                 mret (t + timedelta_minutes (default_permission_duration env))
             | Some d => mret d
             end;
  already_allowed ← has_video_role member;
  if already_allowed : bool then
    send MsgAlreadyCanStream
  else
    schedule_at duration member (RevokeStreamingPermission member);;
    cache_set member (timestamp duration);;
    add_roles member;;
    send (MsgCanNowStream member duration).

(** Lines 109-129. *)
Definition permanentstream (member : Member) : M unit :=
  already_allowed ← has_video_role member;
  if already_allowed : bool then
    pending ← scheduler_contains member;
    if pending : bool then
      cancel member;;
      cache_delete member;;
      send MsgChangedToPermanent
    else
      send MsgAlreadyCanStream
  else
    add_roles member;;
    send (MsgPermanentlyGranted member).

(** Lines 133-147. *)
Definition revokestream (member : Member) : M unit :=
  allowed ← has_video_role member;
  if allowed : bool then
    pending ← scheduler_contains member;
    (if pending : bool then cancel member else mret tt);;
    _revoke_streaming_permission member;;
    send (MsgRevoked member)
  else
    send MsgNoVideoPermission.

(** Modelled from the spec: the timer of [task_id] elapsing, run by the
    missing [Scheduler].  A timer that is pending and due runs its
    coroutine; whether the coroutine returns or raises, the scheduler
    forgets the task and nothing is raised to anyone. *)
Definition fire (task_id : Z) : M unit := λ w,
  match scheduler w !! task_id with
  | Some t =>
      if bool_decide (due t ≤ now w) then
        let '(_, w1) := run_coroutine (action t) w in
        (Ok tt, set_scheduler (delete task_id) w1)
      else (Ok tt, w)
  | None => (Ok tt, w)
  end.

(** Lines 24-27: a new cog starts with an empty scheduler and launches the
    reload.  (Modelled from the spec: a fresh [Scheduler] has nothing
    pending.) *)
Definition __init__ : M unit := λ w,
  _reload_tasks_from_redis (set_scheduler (λ _, ∅) w).

End Cog.

(** ** Vocabulary of the statements *)

(** No request to Redis fails. *)
Definition redis_up (env : Env) : Prop := ∀ n, redis_fault env n = false.

(** No role edit or message fails. *)
Definition discord_up (env : Env) : Prop := ∀ n, http_fault env n = None.

(** The timer that the reload arms for a stored item. *)
Definition revoke_timer (key : Z) (value : Timestamp) : Timer :=
  mkTimer (utcfromtimestamp value) (RevokeStreamingPermission key).

(** What one turn of the reload loop does to the record and to the timer of
    its own key [k]: [c], [s] before and [c'], [s'] after. *)
Definition reload_post (env : Env) (k v : Z)
    (c : option Z) (s : option Timer) (c' : option Z) (s' : option Timer) : Prop :=
  if in_member_cache env k then c' = c ∧ s' = Some (revoke_timer k v)
  else match fetch_outcome env k with
       | None => c' = c ∧ s' = Some (revoke_timer k v)
       | Some NotFound => c' = None ∧ s' = s
       | Some _ => c' = c ∧ s' = s
       end.

(** The calls that the reload may issue, and when. *)
Definition reload_event_ok (env : Env) (ev : Event) : Prop :=
  match ev with
  | EvCacheItems => True
  | EvFetchMember j => in_member_cache env j = false
  | EvCacheDelete j =>
      in_member_cache env j = false ∧ fetch_outcome env j = Some NotFound
  | EvScheduleAt t j c =>
      (in_member_cache env j = true ∨ fetch_outcome env j = None)
      ∧ c = RevokeStreamingPermission j
  | _ => False
  end.




(** Every pending timer revokes the member it is filed under. *)
Definition timers_own_member (w : World) : Prop :=
  ∀ k t, scheduler w !! k = Some t → action t = RevokeStreamingPermission k.

(** The stores of the second world hold what those of the first hold. *)
Definition same_stores (w1 w2 : World) : Prop :=
  task_cache w2 = task_cache w1
  ∧ scheduler w2 = scheduler w1
  ∧ video_role w2 = video_role w1.

(** Record, timer and role of [other] are in [w'] what they are in [w]. *)
Definition same_for (other : Z) (w w' : World) : Prop :=
  task_cache w' !! other = task_cache w !! other
  ∧ scheduler w' !! other = scheduler w !! other
  ∧ (other ∈ video_role w' ↔ other ∈ video_role w).

(** ** Concrete scenarios *)

Module Scenario.

(** Member 1 is in the local cache, 2 has left the guild, 3 cannot be
    fetched for now, every other member is fetched from Discord. *)
Definition guild_cache (k : Z) : bool := bool_decide (k = 1).

Definition guild_fetch (k : Z) : option HTTPKind :=
  if bool_decide (k = 2) then Some NotFound
  else if bool_decide (k = 3) then Some ServerError
  else None.

(** Everything works; the host runs in UTC. *)
Definition calm : Env :=
  mkEnv guild_cache guild_fetch (λ _, false) (λ _, None) 0 30.


(** Discord refuses every role edit and message. *)
Definition discord_down : Env :=
  mkEnv guild_cache guild_fetch (λ _, false) (λ _, Some Forbidden) 0 30.

(** Everything works; the host's local time is one hour ahead of UTC. *)
Definition utc_plus_1 : Env :=
  mkEnv guild_cache guild_fetch (λ _, false) (λ _, None) 3600000000 30.

(** 2020-09-13 12:26:40 UTC, nothing stored, nothing pending. *)
Definition t0 : Z := 1600000000000000.

Definition empty_world : World := mkWorld ∅ ∅ ∅ t0 0 [].

(** Four records left by an earlier run, the first one overdue. *)
Definition stored : gmap Z Z :=
  {[ 1 := t0 - 5000000; 2 := t0 + 60000000; 3 := t0 + 70000000; 4 := t0 + 80000000 ]}.

Definition after_restart : World := mkWorld stored ∅ {[1; 3; 4]} t0 0 [].

(** Member 7 holds the role until [t0 + 10 s]. *)
Definition armed_7 : World :=
  mkWorld {[ 7 := t0 + 10000000 ]}
          {[ 7 := mkTimer (t0 + 10000000) (RevokeStreamingPermission 7) ]}
          {[ 7 ]} t0 0 [].

(** Member 9 holds the role permanently. *)
Definition permanent_9 : World := mkWorld ∅ ∅ {[ 9 ]} t0 0 [].

(** Member 7 is still pending, but the role was taken away by hand. *)
Definition lost_role_7 : World :=
  mkWorld {[ 7 := t0 + 10000000 ]}
          {[ 7 := mkTimer (t0 + 10000000) (RevokeStreamingPermission 7) ]}
          ∅ t0 0 [].


(** Redis refuses the first request only; all else works. *)
Definition redis_fails_once : Env :=
  mkEnv guild_cache guild_fetch (λ n, bool_decide (n = 0%nat)) (λ _, None) 0 30.

End Scenario.

(** ** Proof tools *)

Tactic Notation "run_cog" :=
  unfold run_coroutine, __init__, _reload_tasks_from_redis, reload_one, stream,
    permanentstream, revokestream, _revoke_streaming_permission, get_member,
    fetch_member, cache_set, cache_delete, cache_items, add_roles, remove_roles,
    send, has_video_role, scheduler_contains, schedule_at, cancel, utcnow,
    redis_request, discord_request, mbind, M_bind, mret, M_ret.

Tactic Notation "run_cog" "in" hyp(H) :=
  unfold run_coroutine, __init__, _reload_tasks_from_redis, reload_one, stream,
    permanentstream, revokestream, _revoke_streaming_permission, get_member,
    fetch_member, cache_set, cache_delete, cache_items, add_roles, remove_roles,
    send, has_video_role, scheduler_contains, schedule_at, cancel, utcnow,
    redis_request, discord_request, mbind, M_bind, mret, M_ret in H.

(** Proving that each logged call is one the reload may issue. *)
Ltac trace_ok :=
  repeat (apply Forall_cons; split); try apply Forall_nil; cbn;
  intuition (auto; congruence).

(** Bringing the trace of a run into the shape [events w ++ new]. *)
Ltac trace_eq := unfold events; cbn; rewrite ?fmap_app, <- ?app_assoc; cbn.

(** Splitting a run on every test and every fault it meets. *)
Ltac crunch H :=
  repeat (match type of H with
          | context [bool_decide ?P] => destruct (bool_decide P) eqn:?
          | context [redis_fault ?e ?n] => destruct (redis_fault e n) eqn:?
          | context [http_fault ?e ?n] => destruct (http_fault e n) eqn:?
          end; cbn in H);
  injection H as <- <-; cbn.

(** Closing a goal about the record, timer and role of another member. *)
Ltac other_member :=
  unfold same_for; cbn;
  rewrite ?lookup_insert_ne, ?lookup_delete_ne by done;
  repeat split; try done;
  rewrite ?elem_of_union, ?elem_of_difference, ?elem_of_singleton;
  intuition (auto; congruence).

(** Closing a goal about the timers after a run. *)
Ltac own_member m :=
  let k := fresh "k" in let t := fresh "t" in let Hk := fresh "Hk" in
  intros k t Hk; cbn in Hk;
  destruct (decide (k = m)) as [->|];
  [rewrite ?lookup_insert_eq, ?lookup_delete_eq in Hk
  |rewrite ?lookup_insert_ne, ?lookup_delete_ne in Hk by done];
  first [by injection Hk as <- | discriminate | eauto].

Lemma for_each_cons {A} (x : A) xs body w :
  for_each (x :: xs) body w =
  match body x w with
  | (Ok _, w') => for_each xs body w'
  | (Raise e, w') => (Raise e, w')
  end.
Proof. reflexivity. Qed.

Section Reload.

Variable env : Env.
Hypothesis Hup : redis_up env.

(** One turn of the loop never raises while Redis answers, and touches
    only the record and the timer of its own key. *)
Lemma reload_one_spec k v w :
  ∃ w', reload_one env (k, v) w = (Ok tt, w')
    ∧ video_role w' = video_role w ∧ now w' = now w
    ∧ (∀ j, j ≠ k → task_cache w' !! j = task_cache w !! j
                   ∧ scheduler w' !! j = scheduler w !! j)
    ∧ reload_post env k v (task_cache w !! k) (scheduler w !! k)
                          (task_cache w' !! k) (scheduler w' !! k).
Proof.
  unfold reload_post. run_cog.
  destruct (in_member_cache env k) eqn:Hc; cbn.
  - eexists; split; [reflexivity|]. cbn. repeat split; auto.
    + by rewrite lookup_insert_ne.
    + by rewrite lookup_insert_eq.
  - destruct (fetch_outcome env k) as [[]|] eqn:Hf; cbn; rewrite ?Hup; cbn.
    all: eexists; (split; [reflexivity|]); cbn; repeat split; auto.
    all: try (by rewrite lookup_delete_ne).
    all: try (by rewrite lookup_insert_ne).
    all: try (by rewrite lookup_delete_eq).
    all: try (by rewrite lookup_insert_eq).
Qed.

(** The whole loop, over items with pairwise different keys. *)
Lemma reload_loop_spec (items : list (Z * Z)) :
  NoDup items.*1 →
  ∀ w, ∃ w', for_each items (reload_one env) w = (Ok tt, w')
    ∧ video_role w' = video_role w ∧ now w' = now w
    ∧ (∀ j, j ∉ items.*1 → task_cache w' !! j = task_cache w !! j
                          ∧ scheduler w' !! j = scheduler w !! j)
    ∧ (∀ k v, (k, v) ∈ items →
         reload_post env k v (task_cache w !! k) (scheduler w !! k)
                             (task_cache w' !! k) (scheduler w' !! k)).
Proof.
  induction items as [|[k0 v0] items IH]; intros Hnd w.
  - exists w. cbn. repeat split; auto. intros k v Hin. by apply elem_of_nil in Hin.
  - apply NoDup_cons in Hnd as [Hk0 Hnd]. cbn in Hk0.
    destruct (reload_one_spec k0 v0 w) as (w1 & Hrun1 & Hv1 & Hn1 & Hfr1 & Hpost1).
    destruct (IH Hnd w1) as (w' & Hrun & Hv & Hn & Hfr & Hpost).
    exists w'. split.
    { by rewrite for_each_cons, Hrun1. }
    split; [congruence|]. split; [congruence|]. split.
    + intros j Hj. cbn in Hj. apply not_elem_of_cons in Hj as [Hne Hj].
      destruct (Hfr j Hj) as [-> ->]. by apply Hfr1.
    + intros k v Hin. apply elem_of_cons in Hin as [Heq|Hin].
      * injection Heq as -> ->. destruct (Hfr k0 Hk0) as [-> ->]. done.
      * assert (k ∈ items.*1) as Hk by (apply list_elem_of_fmap; by exists (k, v)).
        assert (k ≠ k0) as Hne by (intros ->; done).
        destruct (Hfr1 k Hne) as [<- <-]. by apply Hpost.
Qed.

(** The reload as a whole: it returns, keys without a record are left
    alone, and every record is handled as [reload_post] says. *)
Lemma reload_spec w :
  ∃ w', _reload_tasks_from_redis env w = (Ok tt, w')
    ∧ video_role w' = video_role w ∧ now w' = now w
    ∧ (∀ k, task_cache w !! k = None →
         task_cache w' !! k = None ∧ scheduler w' !! k = scheduler w !! k)
    ∧ (∀ k v, task_cache w !! k = Some v →
         reload_post env k v (Some v) (scheduler w !! k)
                             (task_cache w' !! k) (scheduler w' !! k)).
Proof.
  unfold _reload_tasks_from_redis, cache_items, redis_request, mbind, M_bind.
  rewrite Hup. cbn.
  set (w1 := bump (record EvCacheItems w)).
  destruct (reload_loop_spec (map_to_list (task_cache w))
              (NoDup_fst_map_to_list _) w1) as (w' & Hrun & Hv & Hn & Hfr & Hpost).
  exists w'. split; [done|]. split; [done|]. split; [done|]. split.
  - intros k Hk. destruct (Hfr k) as [-> ->]; [|done].
    intros Hin. apply list_elem_of_fmap in Hin as ([k' v] & -> & Hin).
    apply elem_of_map_to_list in Hin. cbn in Hk. congruence.
  - intros k v Hk. specialize (Hpost k v). rewrite <- Hk. apply Hpost.
    by apply elem_of_map_to_list.
Qed.

End Reload.

Section ReloadTrace.

Variable env : Env.

(** Whatever fails, one turn of the loop issues only the calls of
    [reload_event_ok]. *)
Lemma reload_one_trace k v w :
  ∃ new, trace (reload_one env (k, v) w).2 = trace w ++ new
       ∧ Forall (λ e, reload_event_ok env e.1) new.
Proof.
  run_cog.
  destruct (in_member_cache env k) eqn:Hc; cbn.
  - eexists; split; [reflexivity|]. trace_ok.
  - destruct (fetch_outcome env k) as [[]|] eqn:Hf; cbn.
    1: destruct (redis_fault env (S (calls w))); cbn.
    all: rewrite <- ?app_assoc; eexists; (split; [reflexivity|]).
    all: trace_ok.
Qed.

Lemma reload_loop_trace (items : list (Z * Z)) w :
  ∃ new, trace (for_each items (reload_one env) w).2 = trace w ++ new
       ∧ Forall (λ e, reload_event_ok env e.1) new.
Proof.
  revert w. induction items as [|[k v] items IH]; intros w.
  - exists []. cbn. by rewrite app_nil_r.
  - rewrite for_each_cons.
    destruct (reload_one_trace k v w) as (n1 & Ht1 & Hok1).
    destruct (reload_one env (k, v) w) as [[[]|e] w1]; cbn in Ht1.
    + destruct (IH w1) as (n2 & Ht2 & Hok2).
      exists (n1 ++ n2). rewrite Ht2, Ht1, app_assoc. split; [done|].
      by apply Forall_app.
    + by exists n1.
Qed.

Lemma reload_trace w :
  ∃ new, trace (_reload_tasks_from_redis env w).2 = trace w ++ new
       ∧ Forall (λ e, reload_event_ok env e.1) new.
Proof.
  unfold _reload_tasks_from_redis, cache_items, redis_request, mbind, M_bind.
  destruct (redis_fault env (calls w)); cbn.
  - eexists; split; [reflexivity|]. repeat constructor.
  - destruct (reload_loop_trace (map_to_list (task_cache w))
                (bump (record EvCacheItems w))) as (n & Ht & Hok).
    exists ((EvCacheItems, task_cache w) :: n). rewrite Ht. cbn.
    rewrite <- app_assoc. split; [done|]. by constructor.
Qed.

End ReloadTrace.

Section ReloadFull.

Variable env : Env.
Hypothesis Hup : redis_up env.

(** A record whose member resolves is kept and its timer armed. *)
Lemma reload_arms_resolved w w' Y U :
  (∀ k v, task_cache w !! k = Some v →
     reload_post env k v (Some v) (scheduler w !! k)
                         (task_cache w' !! k) (scheduler w' !! k)) →
  task_cache w !! Y = Some U →
  in_member_cache env Y = true ∨ fetch_outcome env Y = None →
  task_cache w' !! Y = Some U ∧ scheduler w' !! Y = Some (revoke_timer Y U).
Proof.
  intros Hpost HY Hres. specialize (Hpost Y U HY). unfold reload_post in Hpost.
  destruct (in_member_cache env Y); [done|].
  destruct Hres as [|Hres]; [done|]. by rewrite Hres in Hpost.
Qed.

(** Stores and trace of the reload together. *)
Lemma reload_full w :
  ∃ w' new, _reload_tasks_from_redis env w = (Ok tt, w')
    ∧ video_role w' = video_role w ∧ now w' = now w
    ∧ trace w' = trace w ++ new
    ∧ Forall (λ e, reload_event_ok env e.1) new
    ∧ (∀ k, task_cache w !! k = None →
         task_cache w' !! k = None ∧ scheduler w' !! k = scheduler w !! k)
    ∧ (∀ k v, task_cache w !! k = Some v →
         reload_post env k v (Some v) (scheduler w !! k)
                             (task_cache w' !! k) (scheduler w' !! k)).
Proof.
  destruct (reload_spec env Hup w) as (w' & Hrun & Hv & Hn & Hnone & Hpost).
  destruct (reload_trace env w) as (new & Ht & Hok). rewrite Hrun in Ht.
  by exists w', new.
Qed.

(** A member without a record has no timer after a restart. *)
Lemma restart_forgets w member :
  task_cache w !! member = None →
  ∃ w', __init__ env w = (Ok tt, w')
    ∧ scheduler w' !! member = None ∧ task_cache w' !! member = None.
Proof.
  intros Hc. unfold __init__.
  destruct (reload_full (set_scheduler (λ _, ∅) w))
    as (w' & new & Hrun & _ & _ & _ & _ & Hnone & _).
  exists w'. split; [done|]. destruct (Hnone member Hc) as [-> ->]. done.
Qed.

End ReloadFull.

Section Commands.

Variable env : Env.

(** Without a duration, [stream] takes the default one and goes on alike. *)
Lemma stream_default member duration w :
  stream env member duration w
  = stream env member
      (Some (default (now w + timedelta_minutes (default_permission_duration env))
                     duration)) w.
Proof. by destruct duration. Qed.

(** [stream] for a member without the role: the timer first, the record
    second. *)
Lemma stream_arm_spec member d w r w' :
  member ∉ video_role w →
  stream env member (Some d) w = (r, w') →
  let arm := EvScheduleAt d member (RevokeStreamingPermission member) in
  let put := EvCacheSet member (timestamp env d) in
  scheduler w' !! member = Some (mkTimer d (RevokeStreamingPermission member))
  ∧ (∃ rest, events w' = events w ++ arm :: put :: rest)
  ∧ (redis_fault env (calls w) = true →
       r = Raise RedisError
       ∧ events w' = events w ++ [arm; put]
       ∧ task_cache w' = task_cache w
       ∧ video_role w' = video_role w)
  ∧ (redis_fault env (calls w) = false →
       task_cache w' !! member = Some (timestamp env d)).
Proof.
  intros Hrole Hrun arm put. subst arm put.
  run_cog in Hrun. rewrite bool_decide_eq_false_2 in Hrun by done. cbn in Hrun.
  destruct (redis_fault env (calls w)) eqn:Hr; cbn in Hrun.
  - injection Hrun as <- <-. cbn. split; [apply lookup_insert_eq|].
    split; [exists []; by trace_eq|]. split; [|done].
    intros _. repeat split. by trace_eq.
  - destruct (http_fault env (S (calls w))); cbn in Hrun;
      [|destruct (http_fault env (S (S (calls w))))]; injection Hrun as <- <-; cbn.
    all: split; [apply lookup_insert_eq|].
    all: split; [eexists; by trace_eq|].
    all: split; [done|]; intros _; apply lookup_insert_eq.
Qed.


(** Once Redis takes the delete, the record is gone however the rest of
    the revocation goes. *)
Lemma revoke_record_gone member w r w' :
  redis_fault env (calls w) = false →
  _revoke_streaming_permission env member w = (r, w') →
  task_cache w' !! member = None.
Proof.
  intros Hr Hrun. run_cog in Hrun. rewrite Hr in Hrun. cbn in Hrun.
  destruct (http_fault env (S (calls w))); injection Hrun as <- <-; cbn;
    apply lookup_delete_eq.
Qed.

(** A due timer that fires takes its record and itself away. *)
Lemma fire_deletes_record task_id member d w :
  scheduler w !! task_id = Some (mkTimer d (RevokeStreamingPermission member)) →
  d ≤ now w →
  redis_fault env (calls w) = false →
  ∃ w', fire env task_id w = (Ok tt, w')
    ∧ task_cache w' !! member = None ∧ scheduler w' !! task_id = None.
Proof.
  intros Hs Hd Hr. unfold fire. rewrite Hs. cbn [due action].
  rewrite bool_decide_eq_true_2 by done.
  destruct (run_coroutine env (RevokeStreamingPermission member) w) as [r w1] eqn:Hrun.
  cbn in Hrun. pose proof (revoke_record_gone member w r w1 Hr Hrun) as Hc.
  eexists. split; [done|]. cbn. split; [done|]. apply lookup_delete_eq.
Qed.

End Commands.

(** ** One pending action per id *)




(** ** Arming: [stream] *)




(** ** Restart: [__init__] and [_reload_tasks_from_redis] *)

(** The due time that a restart gives back is the one armed by [stream]
    less the host's offset from UTC. *)
Lemma restart_rearms_with_shifted_due_time env member d w r w1 :
  redis_up env →
  member ∉ video_role w →
  in_member_cache env member = true ∨ fetch_outcome env member = None →
  stream env member (Some d) w = (r, w1) →
  scheduler w1 !! member = Some (mkTimer d (RevokeStreamingPermission member))
  ∧ ∃ w2, __init__ env w1 = (Ok tt, w2)
      ∧ scheduler w2 !! member
          = Some (mkTimer (d - utc_offset env) (RevokeStreamingPermission member)).
Proof.
  intros Hup Hrole Hres Hrun.
  destruct (stream_arm_spec env member d w r w1 Hrole Hrun)
    as (Hs & _ & _ & Hc). specialize (Hc (Hup _)).
  split; [done|]. unfold __init__.
  destruct (reload_full env Hup (set_scheduler (λ _, ∅) w1))
    as (w2 & new & Hrun2 & _ & _ & _ & _ & _ & Hpost).
  exists w2. split; [done|].
  by destruct (reload_arms_resolved env _ w2 member _ Hpost Hc Hres) as [_ ->].
Qed.

(** On a host that runs in UTC the restart gives back the same timer. *)
Lemma restart_keeps_due_time_on_utc_host env member d w r w1 :
  utc_offset env = 0 →
  redis_up env →
  member ∉ video_role w →
  in_member_cache env member = true ∨ fetch_outcome env member = None →
  stream env member (Some d) w = (r, w1) →
  ∃ w2, __init__ env w1 = (Ok tt, w2)
    ∧ scheduler w2 !! member = scheduler w1 !! member.
Proof.
  intros Hutc Hup Hrole Hres Hrun.
  destruct (restart_rearms_with_shifted_due_time env member d w r w1 Hup Hrole Hres Hrun)
    as (Hs & w2 & Hrun2 & Hs2).
  exists w2. split; [done|]. rewrite Hs, Hs2, Hutc. by rewrite Z.sub_0_r.
Qed.

(** C2, on a host one hour ahead of UTC: [stream] with the default duration
    arms the revocation for [t0 + 30 min] and stores that naive datetime
    read as local time; after a restart the reload arms the same member for
    [t0 - 30 min], one hour before the time armed at first. *)
Example restart_shifts_due_time_off_utc :
  ∃ w1 w2,
    stream Scenario.utc_plus_1 5 None Scenario.empty_world = (Ok tt, w1)
    ∧ scheduler w1 !! 5
        = Some (mkTimer (Scenario.t0 + 1800000000) (RevokeStreamingPermission 5))
    ∧ task_cache w1 !! 5 = Some (Scenario.t0 + 1800000000 - 3600000000)
    ∧ __init__ Scenario.utc_plus_1 w1 = (Ok tt, w2)
    ∧ scheduler w2 !! 5
        = Some (mkTimer (Scenario.t0 + 1800000000 - 3600000000)
                        (RevokeStreamingPermission 5))
    ∧ scheduler w2 !! 5 ≠ scheduler w1 !! 5.
Proof.
  eexists. eexists. split; [vm_compute; reflexivity|].
  split; [by vm_compute|]. split; [by vm_compute|].
  split; [vm_compute; reflexivity|]. split; [by vm_compute|].
  vm_compute. discriminate.
Qed.







(** ** Firing: [_revoke_streaming_permission] *)

(** C4: when the pending action runs and the role removal is reached --
    it returns or it raises -- the record of the member is gone afterwards
    in both cases, so a later restart arms nothing for the member.  The
    removal is reached whenever Redis takes the delete. *)
Theorem revoke_deletes_record_even_if_removal_fails env member w r w' :
  _revoke_streaming_permission env member w = (r, w') →
  r = Ok tt ∨ (∃ k, r = Raise (HTTPException k)) →
  task_cache w' !! member = None
  ∧ (r = Ok tt → member ∉ video_role w')
  ∧ (∀ k, r = Raise (HTTPException k) →
       http_fault env (S (calls w)) = Some k ∧ video_role w' = video_role w)
  ∧ (redis_up env →
       ∃ w'', __init__ env w' = (Ok tt, w'') ∧ scheduler w'' !! member = None).
Proof.
  intros Hrun Hr.
  assert (redis_fault env (calls w) = false) as Hredis.
  { run_cog in Hrun. destruct (redis_fault env (calls w)); [|done].
    cbn in Hrun. injection Hrun as <- <-. by destruct Hr as [|[k ?]]. }
  pose proof (revoke_record_gone env member w r w' Hredis Hrun) as Hgone.
  split; [done|]. run_cog in Hrun. rewrite Hredis in Hrun. cbn in Hrun.
  split; [|split].
  - destruct (http_fault env (S (calls w))); injection Hrun as <- <-; [done|].
    intros _ [_ Hn]%elem_of_difference. apply Hn. by apply elem_of_singleton.
  - intros k ->.
    destruct (http_fault env (S (calls w))) as [h|]; [|discriminate].
    by injection Hrun as -> <-.
  - intros Hup.
    destruct (restart_forgets env Hup w' member Hgone) as (w'' & ? & ? & _).
    by exists w''.
Qed.

(** The role removal is reached whenever Redis takes the delete. *)
Lemma revoke_reaches_removal env member w :
  redis_fault env (calls w) = false →
  let r := (_revoke_streaming_permission env member w).1 in
  r = Ok tt ∨ (∃ k, r = Raise (HTTPException k)).
Proof.
  intros Hr. run_cog. rewrite Hr. cbn.
  destruct (http_fault env (S (calls w))); cbn; eauto.
Qed.

Lemma revoke_deletes_record_even_if_removal_fails_witness :
  ∃ w', _revoke_streaming_permission Scenario.discord_down 7 Scenario.armed_7
          = (Raise (HTTPException Forbidden), w')
    ∧ task_cache w' !! 7 = None
    ∧ video_role w' = video_role Scenario.armed_7.
Proof.
  eexists. split; [reflexivity|].
  destruct (revoke_deletes_record_even_if_removal_fails Scenario.discord_down 7
              Scenario.armed_7 _ _ eq_refl
              (or_intror (ex_intro _ Forbidden eq_refl))) as (Hc & _ & Hr & _).
  split; [exact Hc|]. exact (proj2 (Hr Forbidden eq_refl)).
Defined.

(** C10: in the revocation the record is deleted before the role removal is
    requested: every request to remove the role is preceded by the delete
    and sees a store without the member's record.  When the removal then
    raises, the record is gone all the same and the member keeps the role;
    a later restart finds no record and arms no timer for the member. *)
Theorem revoke_deletes_record_before_removing_role env member w r w' :
  _revoke_streaming_permission env member w = (r, w') →
  ∃ new,
    trace w' = trace w ++ new
    ∧ (∀ c, (EvRemoveRoles member, c) ∈ new → c !! member = None)
    ∧ (∀ pre c post, new = pre ++ (EvRemoveRoles member, c) :: post →
         EvCacheDelete member ∈ pre.*1)
    ∧ (∀ k, redis_fault env (calls w) = false →
            http_fault env (S (calls w)) = Some k →
         r = Raise (HTTPException k)
         ∧ task_cache w' !! member = None
         ∧ video_role w' = video_role w
         ∧ (redis_up env →
              ∃ w'', __init__ env w' = (Ok tt, w'')
                ∧ scheduler w'' !! member = None
                ∧ task_cache w'' !! member = None)).
Proof.
  intros Hrun. run_cog in Hrun.
  destruct (redis_fault env (calls w)) eqn:Hr; cbn in Hrun.
  - injection Hrun as <- <-. cbn. eexists. split; [reflexivity|].
    split; [|split].
    + intros c Hin. apply list_elem_of_singleton in Hin. discriminate.
    + intros [|p [|q pre]] c post Heq; cbn in Heq; discriminate.
    + intros k ?. discriminate.
  - exists [(EvCacheDelete member, task_cache w);
            (EvRemoveRoles member, delete member (task_cache w))].
    assert (trace w' = trace w ++ [(EvCacheDelete member, task_cache w);
                (EvRemoveRoles member, delete member (task_cache w))]
            ∧ task_cache w' = delete member (task_cache w)) as [Ht Hc].
    { destruct (http_fault env (S (calls w))); injection Hrun as <- <-; cbn;
        by rewrite <- app_assoc. }
    split; [done|]. split; [|split].
    + intros c Hin. apply elem_of_cons in Hin as [Heq|Hin]; [discriminate|].
      apply list_elem_of_singleton in Hin. injection Hin as ->. apply lookup_delete_eq.
    + intros [|p [|q pre]] c post Heq; cbn in Heq.
      * discriminate.
      * injection Heq as <- _. cbn. apply list_elem_of_here.
      * injection Heq as _ _ Heq. by destruct pre.
    + intros k _ Hh. rewrite Hh in Hrun. injection Hrun as <- <-. cbn.
      split; [done|]. split; [apply lookup_delete_eq|]. split; [done|].
      intros Hup. apply restart_forgets; [done|]. cbn. apply lookup_delete_eq.
Qed.

Lemma revoke_deletes_record_before_removing_role_witness :
  ∃ new,
    trace (_revoke_streaming_permission Scenario.discord_down 7 Scenario.armed_7).2
      = trace Scenario.armed_7 ++ new
    ∧ (∀ c, (EvRemoveRoles 7, c) ∈ new → c !! 7 = None)
    ∧ (∀ pre c post, new = pre ++ (EvRemoveRoles 7, c) :: post →
         EvCacheDelete 7 ∈ pre.*1).
Proof.
  destruct (revoke_deletes_record_before_removing_role Scenario.discord_down 7
              Scenario.armed_7 _ _ eq_refl) as (new & Ht & Hc & Ho & _).
  exists new. split; [exact Ht|]. split; [exact Hc|exact Ho].
Defined.

(** ** One action per member *)




(** ** Cancelling: [permanentstream] and [revokestream] *)

(** C7: [permanentstream] for a member with a pending revocation cancels the
    timer and then deletes the record.  The timer is gone in any case; once
    the command returns, or as soon as Redis took the delete, the record is
    gone too, and a later restart arms nothing for the member. *)
Theorem permanentstream_cancels_and_forgets env member w r w' :
  member ∈ video_role w →
  is_Some (scheduler w !! member) →
  permanentstream env member w = (r, w') →
  scheduler w' !! member = None
  ∧ (∃ rest, events w' = events w ++ EvCancel member :: EvCacheDelete member :: rest)
  ∧ (redis_fault env (calls w) = false →
       task_cache w' !! member = None ∧ member ∈ video_role w')
  ∧ (r = Ok tt →
       task_cache w' !! member = None
       ∧ (redis_up env →
            ∃ w'', __init__ env w' = (Ok tt, w'')
              ∧ scheduler w'' !! member = None ∧ task_cache w'' !! member = None))
  ∧ (redis_fault env (calls w) = false → http_fault env (S (calls w)) = None →
       r = Ok tt).
Proof.
  intros Hrole Hpend Hrun. run_cog in Hrun.
  rewrite bool_decide_eq_true_2 in Hrun by done. cbn in Hrun.
  rewrite bool_decide_eq_true_2 in Hrun by done. cbn in Hrun.
  destruct (redis_fault env (calls w)) eqn:Hr; cbn in Hrun.
  - injection Hrun as <- <-. cbn. split; [apply lookup_delete_eq|].
    split; [exists []; by trace_eq|]. by repeat split.
  - assert (task_cache w' = delete member (task_cache w)
            ∧ scheduler w' = delete member (scheduler w)
            ∧ video_role w' = video_role w
            ∧ (∃ rest, events w' = events w ++ EvCancel member :: EvCacheDelete member :: rest))
      as (Hc & Hs & Hv & He).
    { destruct (http_fault env (S (calls w))); injection Hrun as <- <-; cbn.
      all: repeat split; eexists; by trace_eq. }
    rewrite Hc, Hs, Hv. split; [apply lookup_delete_eq|]. split; [done|].
    split; [intros _; split; [apply lookup_delete_eq|done]|]. split.
    + intros _. split; [apply lookup_delete_eq|]. intros Hup.
      apply restart_forgets; [done|]. rewrite Hc. apply lookup_delete_eq.
    + intros _ Hh. rewrite Hh in Hrun. by injection Hrun as <- _.
Qed.

Lemma permanentstream_cancels_and_forgets_witness :
  let w' := (permanentstream Scenario.calm 7 Scenario.armed_7).2 in
  scheduler w' !! 7 = None ∧ task_cache w' !! 7 = None.
Proof.
  destruct (permanentstream_cancels_and_forgets Scenario.calm 7 Scenario.armed_7 _ _
              ltac:(vm_compute; reflexivity) ltac:(eexists; vm_compute; reflexivity) eq_refl)
    as (Hs & _ & Hc & _).
  split; [exact Hs|]. exact (proj1 (Hc eq_refl)).
Defined.

(** C9: cancelling an id that is not pending, or one whose timer has fired,
    returns normally and changes no store.  [revokestream] issues a cancel
    exactly when the member holds the role and is pending; for a holder
    that is not pending it cancels nothing and still deletes the record,
    removes the role and answers. *)
Theorem cancel_is_guarded_and_harmless env task_id member w r w' :
  revokestream env member w = (r, w') →
  (scheduler w !! task_id = None →
     ∃ w1, cancel task_id w = (Ok tt, w1)
       ∧ scheduler w1 = scheduler w
       ∧ task_cache w1 = task_cache w
       ∧ video_role w1 = video_role w)
  ∧ (∀ t, scheduler w !! task_id = Some t → due t ≤ now w →
       ∃ w1 w2, fire env task_id w = (Ok tt, w1)
         ∧ cancel task_id w1 = (Ok tt, w2)
         ∧ scheduler w2 = scheduler w1
         ∧ task_cache w2 = task_cache w1
         ∧ video_role w2 = video_role w1)
  ∧ (∃ new, events w' = events w ++ new
       ∧ (∀ id, (EvCancel id ∈ new) ↔
            id = member ∧ member ∈ video_role w ∧ is_Some (scheduler w !! member)))
  ∧ (member ∈ video_role w → scheduler w !! member = None →
       redis_fault env (calls w) = false →
       http_fault env (S (calls w)) = None →
       http_fault env (S (S (calls w))) = None →
       r = Ok tt
       ∧ events w' = events w ++ [EvCacheDelete member; EvRemoveRoles member;
                                  EvSend (MsgRevoked member)]
       ∧ (member ∉ video_role w')
       ∧ task_cache w' !! member = None).
Proof.
  intros Hrun. split; [|split; [|split]].
  - intros Hs. eexists. split; [reflexivity|]. cbn. repeat split.
    by apply delete_id.
  - intros t Hs Hd. unfold fire. rewrite Hs, bool_decide_eq_true_2 by done.
    destruct (run_coroutine env (action t) w) as [r1 w1]. eexists. eexists.
    split; [reflexivity|]. split; [reflexivity|]. cbn. repeat split.
    by rewrite delete_delete_eq.
  - run_cog in Hrun. destruct (decide (member ∈ video_role w)) as [Hrole|Hrole].
    + rewrite bool_decide_eq_true_2 in Hrun by done. cbn in Hrun.
      destruct (scheduler w !! member) as [t|] eqn:Hs.
      * rewrite bool_decide_eq_true_2 in Hrun by done. cbn in Hrun.
        destruct (redis_fault env (calls w)); cbn in Hrun;
          [|destruct (http_fault env (S (calls w))); cbn in Hrun;
            [|destruct (http_fault env (S (S (calls w))))]].
        all: injection Hrun as <- <-; eexists; (split; [by trace_eq|]).
        all: intros id; rewrite !elem_of_cons, elem_of_nil.
        all: split; [intros Hin; repeat destruct Hin as [Hin|Hin]; try done;
                       injection Hin as ->; by eauto|intros (-> & _); by left].
      * rewrite bool_decide_eq_false_2 in Hrun by (by intros [? ?]). cbn in Hrun.
        destruct (redis_fault env (calls w)); cbn in Hrun;
          [|destruct (http_fault env (S (calls w))); cbn in Hrun;
            [|destruct (http_fault env (S (S (calls w))))]].
        all: injection Hrun as <- <-; eexists; (split; [by trace_eq|]).
        all: intros id; rewrite ?elem_of_cons, elem_of_nil.
        all: split; [intros Hin; repeat destruct Hin as [Hin|Hin]; done
                    |by intros (_ & _ & [? ?])].
    + rewrite bool_decide_eq_false_2 in Hrun by done. cbn in Hrun.
      destruct (http_fault env (calls w)); injection Hrun as <- <-.
      all: eexists; (split; [by trace_eq|]).
      all: intros id; rewrite ?elem_of_cons, elem_of_nil.
      all: split; [intros Hin; repeat destruct Hin as [Hin|Hin]; done
                  |by intros (_ & ? & _)].
  - intros Hrole Hs Hr Hh1 Hh2. run_cog in Hrun.
    rewrite bool_decide_eq_true_2 in Hrun by done. cbn in Hrun.
    rewrite Hs, bool_decide_eq_false_2 in Hrun by (by intros [? ?]). cbn in Hrun.
    rewrite Hr in Hrun. cbn in Hrun. rewrite Hh1 in Hrun. cbn in Hrun.
    rewrite Hh2 in Hrun. injection Hrun as <- <-. cbn.
    split; [done|]. split; [by trace_eq|]. split.
    + intros [_ Hn]%elem_of_difference. apply Hn. by apply elem_of_singleton.
    + apply lookup_delete_eq.
Qed.

Lemma cancel_is_guarded_and_harmless_witness :
  let w' := (revokestream Scenario.calm 9 Scenario.permanent_9).2 in
  events w' = events Scenario.permanent_9
                ++ [EvCacheDelete 9; EvRemoveRoles 9; EvSend (MsgRevoked 9)]
  ∧ 9 ∉ video_role w'.
Proof.
  destruct (cancel_is_guarded_and_harmless Scenario.calm 9 9 Scenario.permanent_9 _ _ eq_refl)
    as (_ & _ & _ & Hdone).
  destruct Hdone as (_ & He & Hv & _).
  - vm_compute. reflexivity.
  - reflexivity.
  - reflexivity.
  - reflexivity.
  - reflexivity.
  - split; [exact He|exact Hv].
Defined.


(** * Further properties of the cog *)


Section Runs.

Variable env : Env.



(** [_revoke_streaming_permission] when nothing fails. *)
Lemma revoke_ok member w :
  redis_fault env (calls w) = false →
  http_fault env (S (calls w)) = None →
  ∃ w', _revoke_streaming_permission env member w = (Ok tt, w')
    ∧ task_cache w' = delete member (task_cache w)
    ∧ scheduler w' = scheduler w
    ∧ video_role w' = video_role w ∖ {[member]}
    ∧ calls w' = S (S (calls w))
    ∧ events w' = events w ++ [EvCacheDelete member; EvRemoveRoles member].
Proof.
  intros Hr Hh. run_cog. rewrite Hr. cbn. rewrite Hh.
  eexists. split; [reflexivity|]. cbn. repeat split. by trace_eq.
Qed.

(** [revokestream] for a holder of the role when nothing fails. *)
Lemma revokestream_ok member w :
  member ∈ video_role w →
  redis_fault env (calls w) = false →
  http_fault env (S (calls w)) = None →
  http_fault env (S (S (calls w))) = None →
  ∃ w', revokestream env member w = (Ok tt, w')
    ∧ task_cache w' = delete member (task_cache w)
    ∧ scheduler w' = delete member (scheduler w)
    ∧ video_role w' = video_role w ∖ {[member]}.
Proof.
  intros Hrole Hr Hh1 Hh2. run_cog. rewrite bool_decide_eq_true_2 by done. cbn.
  destruct (scheduler w !! member) as [t|] eqn:Hs.
  - rewrite bool_decide_eq_true_2 by done. cbn. rewrite Hr. cbn. rewrite Hh1. cbn.
    rewrite Hh2. eexists. split; [reflexivity|]. cbn. done.
  - rewrite bool_decide_eq_false_2 by (by intros [? ?]). cbn. rewrite Hr. cbn.
    rewrite Hh1. cbn. rewrite Hh2. eexists. split; [reflexivity|]. cbn.
    repeat split. by rewrite delete_id.
Qed.


(** [permanentstream] for a member without the role when nothing fails. *)
Lemma permanentstream_grant_ok member w :
  member ∉ video_role w →
  http_fault env (calls w) = None →
  http_fault env (S (calls w)) = None →
  ∃ w', permanentstream env member w = (Ok tt, w')
    ∧ task_cache w' = task_cache w
    ∧ scheduler w' = scheduler w
    ∧ video_role w' = video_role w ∪ {[member]}
    ∧ calls w' = S (S (calls w))
    ∧ events w' = events w ++ [EvAddRoles member; EvSend (MsgPermanentlyGranted member)].
Proof.
  intros Hrole Hh1 Hh2. run_cog. rewrite bool_decide_eq_false_2 by done. cbn.
  rewrite Hh1. cbn. rewrite Hh2.
  eexists. split; [reflexivity|]. cbn. repeat split. by trace_eq.
Qed.

End Runs.

(** ** Commands one after the other *)



Section Calm.

Variable env : Env.
Hypothesis Hredis : redis_up env.
Hypothesis Hdiscord : discord_up env.



(** X5: [permanentstream] for a member who is pending but no longer holds
    the role grants the role and leaves the old timer where it is; when that
    timer's coroutine runs, the role just granted for good is removed. *)
Theorem permanentstream_keeps_stale_timer member w t :
  member ∉ video_role w →
  scheduler w !! member = Some t →
  action t = RevokeStreamingPermission member →
  ∃ w1 w2,
    permanentstream env member w = (Ok tt, w1)
    ∧ member ∈ video_role w1
    ∧ scheduler w1 !! member = Some t
    ∧ run_coroutine env (action t) w1 = (Ok tt, w2)
    ∧ member ∉ video_role w2.
Proof.
  intros Hrole Hs Hact.
  destruct (permanentstream_grant_ok env member w Hrole)
    as (w1 & Hrun1 & Hc1 & Hs1 & Hv1 & _); try done.
  destruct (revoke_ok env member w1) as (w2 & Hrun2 & _ & _ & Hv2 & _); try done.
  exists w1, w2. split; [done|].
  split; [rewrite Hv1; apply elem_of_union_r; by apply elem_of_singleton|].
  split; [by rewrite Hs1|]. rewrite Hact. split; [done|].
  rewrite Hv2. intros [_ Hn]%elem_of_difference. apply Hn. by apply elem_of_singleton.
Qed.

(** X9: the revocation can run twice: the second run returns as well and
    changes no store. *)
Theorem revoke_twice_is_revoke_once member w :
  ∃ w1 w2,
    _revoke_streaming_permission env member w = (Ok tt, w1)
    ∧ _revoke_streaming_permission env member w1 = (Ok tt, w2)
    ∧ same_stores w1 w2.
Proof.
  destruct (revoke_ok env member w) as (w1 & Hrun1 & Hc1 & Hs1 & Hv1 & _); try done.
  destruct (revoke_ok env member w1) as (w2 & Hrun2 & Hc2 & Hs2 & Hv2 & _); try done.
  exists w1, w2. split; [done|]. split; [done|].
  unfold same_stores. rewrite Hc2, Hs2, Hv2, Hc1, Hv1, delete_delete_eq.
  repeat split. apply set_eq. intros x.
  rewrite !elem_of_difference. tauto.
Qed.

End Calm.



Lemma permanentstream_keeps_stale_timer_witness :
  ∃ w1 w2,
    permanentstream Scenario.calm 7 Scenario.lost_role_7 = (Ok tt, w1)
    ∧ 7 ∈ video_role w1
    ∧ scheduler w1 !! 7
        = Some (mkTimer (Scenario.t0 + 10000000) (RevokeStreamingPermission 7))
    ∧ run_coroutine Scenario.calm (RevokeStreamingPermission 7) w1 = (Ok tt, w2)
    ∧ 7 ∉ video_role w2.
Proof.
  apply (permanentstream_keeps_stale_timer Scenario.calm (λ n, eq_refl) (λ n, eq_refl)
           7 Scenario.lost_role_7
           (mkTimer (Scenario.t0 + 10000000) (RevokeStreamingPermission 7))).
  - apply not_elem_of_empty.
  - reflexivity.
  - reflexivity.
Defined.

Lemma revoke_twice_is_revoke_once_witness :
  ∃ w1 w2,
    _revoke_streaming_permission Scenario.calm 7 Scenario.armed_7 = (Ok tt, w1)
    ∧ _revoke_streaming_permission Scenario.calm 7 w1 = (Ok tt, w2)
    ∧ same_stores w1 w2.
Proof.
  apply (revoke_twice_is_revoke_once Scenario.calm (λ n, eq_refl) (λ n, eq_refl)).
Defined.

(** ** What the commands leave alone *)

(** X4: unless the member both holds the role and is pending,
    [permanentstream] touches neither the store nor the scheduler, whatever
    fails; for a holder that is not pending it only answers, so that a
    record left over for the member stays. *)
Theorem permanentstream_leaves_stores_outside_upgrade env member w r w' :
  permanentstream env member w = (r, w') →
  ¬ (member ∈ video_role w ∧ is_Some (scheduler w !! member)) →
  task_cache w' = task_cache w
  ∧ scheduler w' = scheduler w
  ∧ (member ∈ video_role w →
       video_role w' = video_role w
       ∧ events w' = events w ++ [EvSend MsgAlreadyCanStream]).
Proof.
  intros Hrun Hnot. run_cog in Hrun.
  destruct (decide (member ∈ video_role w)) as [Hrole|Hrole].
  - rewrite bool_decide_eq_true_2 in Hrun by done. cbn in Hrun.
    rewrite bool_decide_eq_false_2 in Hrun by (intros ?; by apply Hnot). cbn in Hrun.
    crunch Hrun. all: repeat split; by trace_eq.
  - rewrite bool_decide_eq_false_2 in Hrun by done. cbn in Hrun.
    crunch Hrun. all: by repeat split.
Qed.

Lemma permanentstream_leaves_stores_outside_upgrade_witness :
  let w' := (permanentstream Scenario.discord_down 9 Scenario.permanent_9).2 in
  task_cache w' = task_cache Scenario.permanent_9
  ∧ scheduler w' = scheduler Scenario.permanent_9.
Proof.
  destruct (permanentstream_leaves_stores_outside_upgrade Scenario.discord_down 9
              Scenario.permanent_9 _ _ eq_refl) as (Hc & Hs & _).
  - intros [_ [t Ht]]. vm_compute in Ht. discriminate.
  - split; [exact Hc|exact Hs].
Defined.

(** X6: [revokestream] for a member without the role only answers, whatever
    fails: no store changes, so a timer or a record the member still has
    stays in place. *)
Theorem revokestream_without_role_changes_nothing env member w r w' :
  member ∉ video_role w →
  revokestream env member w = (r, w') →
  same_stores w w'
  ∧ events w' = events w ++ [EvSend MsgNoVideoPermission].
Proof.
  intros Hrole Hrun. run_cog in Hrun.
  rewrite bool_decide_eq_false_2 in Hrun by done. cbn in Hrun.
  crunch Hrun. all: split; [done|by trace_eq].
Qed.

Lemma revokestream_without_role_changes_nothing_witness :
  let w' := (revokestream Scenario.calm 7 Scenario.lost_role_7).2 in
  same_stores Scenario.lost_role_7 w'
  ∧ events w' = events Scenario.lost_role_7 ++ [EvSend MsgNoVideoPermission].
Proof.
  apply (revokestream_without_role_changes_nothing Scenario.calm 7 Scenario.lost_role_7
           _ _ (not_elem_of_empty (C:=gset Z) 7) eq_refl).
Defined.

(** X7: when Redis refuses the delete, [revokestream] for a holder of the
    role has already cancelled the timer: the command raises, the member
    keeps role and record, and nothing is pending any more.  Given again
    once Redis answers, the command removes record and role. *)
Theorem revokestream_partial_on_redis_failure env member w r w' :
  member ∈ video_role w →
  redis_fault env (calls w) = true →
  revokestream env member w = (r, w') →
  r = Raise RedisError
  ∧ scheduler w' !! member = None
  ∧ task_cache w' = task_cache w
  ∧ video_role w' = video_role w
  ∧ (redis_fault env (S (calls w)) = false →
     http_fault env (S (S (calls w))) = None →
     http_fault env (S (S (S (calls w)))) = None →
     ∃ w'', revokestream env member w' = (Ok tt, w'')
       ∧ task_cache w'' !! member = None
       ∧ scheduler w'' !! member = None
       ∧ (member ∉ video_role w'')).
Proof.
  intros Hrole Hr Hrun.
  assert (r = Raise RedisError ∧ scheduler w' = delete member (scheduler w)
          ∧ task_cache w' = task_cache w ∧ video_role w' = video_role w
          ∧ calls w' = S (calls w)) as (-> & Hs & Hc & Hv & Hcalls).
  { run_cog in Hrun. rewrite bool_decide_eq_true_2 in Hrun by done. cbn in Hrun.
    destruct (scheduler w !! member) as [t|] eqn:Hsw.
    - rewrite bool_decide_eq_true_2 in Hrun by done. cbn in Hrun.
      rewrite Hr in Hrun. by injection Hrun as <- <-.
    - rewrite bool_decide_eq_false_2 in Hrun by (by intros [? ?]). cbn in Hrun.
      rewrite Hr in Hrun. injection Hrun as <- <-. cbn. by rewrite delete_id. }
  split; [done|]. split; [rewrite Hs; apply lookup_delete_eq|].
  split; [done|]. split; [done|]. intros Hr2 Hh1 Hh2.
  destruct (revokestream_ok env member w') as (w'' & Hrun2 & Hc2 & Hs2 & Hv2);
    try (by rewrite ?Hcalls, ?Hv).
  exists w''. split; [done|]. rewrite Hc2, Hs2, Hv2.
  split; [apply lookup_delete_eq|]. split; [apply lookup_delete_eq|].
  intros [_ Hn]%elem_of_difference. apply Hn. by apply elem_of_singleton.
Qed.

Lemma revokestream_partial_on_redis_failure_witness :
  let w' := (revokestream Scenario.redis_fails_once 7 Scenario.armed_7).2 in
  scheduler w' !! 7 = None
  ∧ task_cache w' = task_cache Scenario.armed_7
  ∧ ∃ w'', revokestream Scenario.redis_fails_once 7 w' = (Ok tt, w'')
      ∧ task_cache w'' !! 7 = None.
Proof.
  destruct (revokestream_partial_on_redis_failure Scenario.redis_fails_once 7
              Scenario.armed_7 _ _ ltac:(vm_compute; reflexivity) eq_refl eq_refl)
    as (_ & Hs & Hc & _ & Hagain).
  split; [exact Hs|]. split; [exact Hc|].
  destruct (Hagain eq_refl eq_refl eq_refl) as (w'' & Hrun & Hgone & _).
  exists w''. split; [exact Hrun|exact Hgone].
Defined.

(** X8: each command, and the revocation, works on its own member only:
    record, timer and role of every other member are afterwards what they
    were, whatever fails on the way. *)
Theorem commands_touch_only_their_member env member duration other w :
  other ≠ member →
  same_for other w (stream env member duration w).2
  ∧ same_for other w (permanentstream env member w).2
  ∧ same_for other w (revokestream env member w).2
  ∧ same_for other w (_revoke_streaming_permission env member w).2.
Proof.
  intros Hne. split; [|split; [|split]].
  - rewrite stream_default.
    destruct (stream env member _ w) as [r w'] eqn:Hrun.
    run_cog in Hrun. crunch Hrun. all: other_member.
  - destruct (permanentstream env member w) as [r w'] eqn:Hrun.
    run_cog in Hrun. crunch Hrun. all: other_member.
  - destruct (revokestream env member w) as [r w'] eqn:Hrun.
    run_cog in Hrun. crunch Hrun. all: other_member.
  - destruct (_revoke_streaming_permission env member w) as [r w'] eqn:Hrun.
    run_cog in Hrun. crunch Hrun. all: other_member.
Qed.

Lemma commands_touch_only_their_member_witness :
  same_for 7 Scenario.armed_7 (stream Scenario.calm 5 None Scenario.armed_7).2
  ∧ same_for 7 Scenario.armed_7 (revokestream Scenario.discord_down 9 Scenario.armed_7).2.
Proof.
  split.
  - apply (commands_touch_only_their_member Scenario.calm 5 None 7 Scenario.armed_7).
    discriminate.
  - apply (commands_touch_only_their_member Scenario.discord_down 9 None 7
             Scenario.armed_7).
    discriminate.
Defined.

(** ** Loops that keep something *)

(** What every turn of a loop keeps, the loop keeps, also when a turn
    raises and ends it. *)
Lemma for_each_preserves {A} (R : World → World → Prop) (body : A → M unit) :
  (∀ w, R w w) →
  (∀ a b c, R a b → R b c → R a c) →
  (∀ x w, R w (body x w).2) →
  ∀ items w, R w (for_each items body w).2.
Proof.
  intros Hrefl Htrans Hstep. induction items as [|x items IH]; intros w.
  - apply Hrefl.
  - rewrite for_each_cons. pose proof (Hstep x w) as H1.
    destruct (body x w) as [[[]|e] w1]; cbn in H1; [|done].
    eapply Htrans; [exact H1|apply IH].
Qed.

Section Invariant.

Variable env : Env.

Lemma reload_one_own_member item w :
  timers_own_member w → timers_own_member (reload_one env item w).2.
Proof.
  intros Hw. destruct item as [key value].
  destruct (reload_one env (key, value) w) as [r w'] eqn:Hrun.
  run_cog in Hrun.
  destruct (in_member_cache env key); cbn in Hrun;
    [|destruct (fetch_outcome env key) as [[]|]; cbn in Hrun].
  all: crunch Hrun.
  all: try done.
  all: own_member key.
Qed.

Lemma reload_own_member w :
  timers_own_member w → timers_own_member (_reload_tasks_from_redis env w).2.
Proof.
  intros Hw. unfold _reload_tasks_from_redis, cache_items, redis_request, mbind, M_bind.
  destruct (redis_fault env (calls w)); [done|]. cbn.
  apply (for_each_preserves (λ a b, timers_own_member a → timers_own_member b));
    [done|by auto|intros; by apply reload_one_own_member|done].
Qed.

End Invariant.

(** X15: that each pending timer revokes the very member it is filed under
    is kept by every command and by the reload, whatever fails, and holds
    after every start of the cog. *)
Theorem timers_always_revoke_their_own_member env member duration w :
  timers_own_member (__init__ env w).2
  ∧ (timers_own_member w →
       timers_own_member (stream env member duration w).2
       ∧ timers_own_member (permanentstream env member w).2
       ∧ timers_own_member (revokestream env member w).2
       ∧ timers_own_member (_reload_tasks_from_redis env w).2).
Proof.
  split.
  - unfold __init__. apply reload_own_member. intros k t Hk. cbn in Hk.
    by rewrite lookup_empty in Hk.
  - intros Hw. split; [|split; [|split]].
    + rewrite stream_default.
      destruct (stream env member _ w) as [r w'] eqn:Hrun.
      run_cog in Hrun. crunch Hrun. all: try done. all: own_member member.
    + destruct (permanentstream env member w) as [r w'] eqn:Hrun.
      run_cog in Hrun. crunch Hrun. all: try done. all: own_member member.
    + destruct (revokestream env member w) as [r w'] eqn:Hrun.
      run_cog in Hrun. crunch Hrun. all: try done. all: own_member member.
    + by apply reload_own_member.
Qed.

Lemma timers_always_revoke_their_own_member_witness :
  timers_own_member (stream Scenario.calm 5 None Scenario.armed_7).2.
Proof.
  destruct (timers_always_revoke_their_own_member Scenario.calm 5 None Scenario.armed_7)
    as [_ Hkeep].
  apply Hkeep. intros k t Hk.
  destruct (decide (k = 7)) as [->|Hne].
  - vm_compute in Hk. by injection Hk as <-.
  - unfold Scenario.armed_7 in Hk. cbn in Hk.
    rewrite lookup_singleton_ne in Hk by done. discriminate.
Defined.

(** ** More on the reload *)

Section ReloadMore.

Variable env : Env.



Lemma reload_one_shrinks item w :
  task_cache (reload_one env item w).2 ⊆ task_cache w
  ∧ video_role (reload_one env item w).2 = video_role w
  ∧ now (reload_one env item w).2 = now w.
Proof.
  destruct item as [key value].
  destruct (reload_one env (key, value) w) as [r w'] eqn:Hrun.
  run_cog in Hrun.
  destruct (in_member_cache env key); cbn in Hrun;
    [|destruct (fetch_outcome env key) as [[]|]; cbn in Hrun].
  all: crunch Hrun.
  all: repeat split; try done; apply delete_subseteq.
Qed.

Lemma reload_one_calls item w :
  (calls w ≤ calls (reload_one env item w).2 ≤ 2 + calls w)%nat.
Proof.
  destruct item as [key value].
  destruct (reload_one env (key, value) w) as [r w'] eqn:Hrun.
  run_cog in Hrun.
  destruct (in_member_cache env key); cbn in Hrun;
    [|destruct (fetch_outcome env key) as [[]|]; cbn in Hrun].
  all: crunch Hrun.
  all: lia.
Qed.

Lemma reload_loop_calls items w :
  (calls w ≤ calls (for_each items (reload_one env) w).2
           ≤ 2 * length items + calls w)%nat.
Proof.
  revert w. induction items as [|x items IH]; intros w; [cbn; lia|].
  rewrite for_each_cons. pose proof (reload_one_calls x w) as H1.
  destruct (reload_one env x w) as [[[]|e] w1]; cbn in H1; cbn [length snd].
  - specialize (IH w1). lia.
  - lia.
Qed.

End ReloadMore.



(** X11: whatever fails, the reload only lists the records, fetches
    members, deletes records and arms timers.  It fetches a member only on
    a miss in the local cache, deletes a record only when the member was
    reported [NotFound], arms only for members that resolve and always with
    the revocation of that member; it never writes a record, edits a role,
    sends a message or cancels a timer. *)
Theorem reload_issues_only_reads_deletes_and_arms env w r w' :
  _reload_tasks_from_redis env w = (r, w') →
  ∃ new, events w' = events w ++ new
    ∧ (∀ j, EvFetchMember j ∈ new → in_member_cache env j = false)
    ∧ (∀ j, EvCacheDelete j ∈ new →
         in_member_cache env j = false ∧ fetch_outcome env j = Some NotFound)
    ∧ (∀ t j c, EvScheduleAt t j c ∈ new →
         (in_member_cache env j = true ∨ fetch_outcome env j = None)
         ∧ c = RevokeStreamingPermission j)
    ∧ (∀ k v, EvCacheSet k v ∉ new)
    ∧ (∀ m, EvAddRoles m ∉ new)
    ∧ (∀ m, EvRemoveRoles m ∉ new)
    ∧ (∀ msg, EvSend msg ∉ new)
    ∧ (∀ j, EvCancel j ∉ new).
Proof.
  intros Hrun. destruct (reload_trace env w) as (new & Ht & Hok).
  rewrite Hrun in Ht. cbn in Ht. exists (new.*1).
  split; [unfold events; by rewrite Ht, fmap_app|].
  assert (∀ ev, ev ∈ new.*1 → reload_event_ok env ev) as Hall.
  { intros ev Hin. apply list_elem_of_fmap in Hin as ([ev' s] & -> & Hin).
    rewrite Forall_forall in Hok. by apply Hok in Hin. }
  split; [intros j Hin; by apply Hall in Hin|].
  split; [intros j Hin; by apply Hall in Hin|].
  split; [intros t j c Hin; by apply Hall in Hin|].
  split; [intros k v Hin; by apply Hall in Hin|].
  split; [intros m Hin; by apply Hall in Hin|].
  split; [intros m Hin; by apply Hall in Hin|].
  split; [intros msg Hin; by apply Hall in Hin|].
  intros j Hin. by apply Hall in Hin.
Qed.

Lemma reload_issues_only_reads_deletes_and_arms_witness :
  ∃ new,
    events (_reload_tasks_from_redis Scenario.calm Scenario.after_restart).2
      = events Scenario.after_restart ++ new
    ∧ (∀ j, EvFetchMember j ∈ new → in_member_cache Scenario.calm j = false)
    ∧ (∀ m, EvRemoveRoles m ∉ new).
Proof.
  destruct (reload_issues_only_reads_deletes_and_arms Scenario.calm
              Scenario.after_restart _ _ eq_refl)
    as (new & He & Hf & _ & _ & _ & _ & Hr & _).
  exists new. split; [exact He|]. split; [exact Hf|exact Hr].
Defined.

(** X12: whatever fails, the reload never adds or alters a record: every
    record in the store afterwards was there before with the same
    timestamp.  It grants and removes no role and does not touch the
    clock. *)
Theorem reload_only_shrinks_store env w r w' :
  _reload_tasks_from_redis env w = (r, w') →
  task_cache w' ⊆ task_cache w
  ∧ (∀ k v, task_cache w' !! k = Some v → task_cache w !! k = Some v)
  ∧ video_role w' = video_role w
  ∧ now w' = now w.
Proof.
  intros Hrun.
  assert (task_cache w' ⊆ task_cache w ∧ video_role w' = video_role w ∧ now w' = now w)
    as (Hsub & Hv & Hn).
  { unfold _reload_tasks_from_redis, cache_items, redis_request, mbind, M_bind in Hrun.
    destruct (redis_fault env (calls w)); cbn in Hrun.
    - by injection Hrun as <- <-.
    - pose proof (for_each_preserves
        (λ a b, task_cache b ⊆ task_cache a ∧ video_role b = video_role a
                ∧ now b = now a) (reload_one env)) as Hloop.
      cbn in Hloop.
      specialize (Hloop (λ _, conj (reflexivity _) (conj eq_refl eq_refl))).
      assert (Hloop' := Hloop
        ltac:(intros a b c (? & ? & ?) (? & ? & ?);
              split; [by etrans|]; split; congruence)
        (reload_one_shrinks env)
        (map_to_list (task_cache w)) (bump (record EvCacheItems w))).
      by rewrite Hrun in Hloop'. }
  split; [done|]. split; [|done].
  intros k v Hk. by eapply lookup_weaken.
Qed.

Lemma reload_only_shrinks_store_witness :
  task_cache (_reload_tasks_from_redis Scenario.calm Scenario.after_restart).2
    ⊆ task_cache Scenario.after_restart.
Proof.
  destruct (reload_only_shrinks_store Scenario.calm Scenario.after_restart _ _ eq_refl)
    as [Hsub _].
  exact Hsub.
Defined.

(** X16: the reload sends at most one request to list the records and two
    per record (one fetch, one delete), whatever fails; on an empty store
    the listing is its only request. *)
Theorem reload_request_bound env w r w' :
  _reload_tasks_from_redis env w = (r, w') →
  (calls w < calls w' ≤ 1 + 2 * size (task_cache w) + calls w)%nat
  ∧ (task_cache w = ∅ → calls w' = S (calls w)).
Proof.
  intros Hrun.
  assert (calls w < calls w' ≤ 1 + 2 * size (task_cache w) + calls w)%nat as Hb.
  { unfold _reload_tasks_from_redis, cache_items, redis_request, mbind, M_bind in Hrun.
    destruct (redis_fault env (calls w)); cbn in Hrun.
    - injection Hrun as <- <-. cbn. lia.
    - pose proof (reload_loop_calls env (map_to_list (task_cache w))
                    (bump (record EvCacheItems w))) as Hl.
      rewrite Hrun, length_map_to_list in Hl. cbn in Hl. lia. }
  split; [done|]. intros He. rewrite He, map_size_empty in Hb. lia.
Qed.

Lemma reload_request_bound_witness :
  (calls (_reload_tasks_from_redis Scenario.calm Scenario.empty_world).2
   = S (calls Scenario.empty_world))%nat.
Proof.
  destruct (reload_request_bound Scenario.calm Scenario.empty_world _ _ eq_refl)
    as [_ Hempty].
  apply Hempty. reflexivity.
Defined.







